(** * Plane changes in fabric.js: [src/util/misc/planeChange.ts]

    A shallow embedding of the plane-change utilities and the properties
    the specification states about them.

    Numbers.  A TypeScript [number] is modelled as an exact rational
    ([Qc], rationals in lowest terms, with Leibniz equality), so the
    algebraic laws below are the laws of exact arithmetic; rounding is
    outside the model.

    Objects.  A [FabricObject] is a mutable object that is passed by
    reference; the model keeps the objects in a store indexed by
    references and threads the store through [sendObjectToPlane]. *)

From Stdlib Require Import QArith Qcanon Field List.
From stdpp Require Import base decidable option numbers strings gmap.

Local Open Scope Qc_scope.

(** ** Matrices ([TMat2D]) and points *)

(** [TMat2D] is the six-element array [[a, b, c, d, e, f]] of the
    typedefs: the affine map with linear part [(a c; b d)] and
    translation [(e, f)]. *)
Record TMat2D : Type := mkMat {
  m0 : Qc; m1 : Qc; m2 : Qc; m3 : Qc; m4 : Qc; m5 : Qc
}.

(** Angles in degrees. *)
Definition TDegree : Type := Qc.

#[global] Instance TMat2D_eq_dec : EqDecision TMat2D.
Proof. solve_decision. Defined.

(** Modelled from the spec: the constant [iMatrix] of [constants], which
    is not part of the sources at hand; "Identity matrix is the default
    for no transform". *)
Definition iMatrix : TMat2D := mkMat 1 0 0 1 0 0.

(** Modelled from the spec: [multiplyTransformMatrices] of
    [util/misc/matrix], which is not part of the sources at hand;
    "multiply(A, B) -> A·B", the composition that applies [B] first. *)
Definition multiplyTransformMatrices (a b : TMat2D) : TMat2D :=
  mkMat (m0 a * m0 b + m2 a * m1 b)
        (m1 a * m0 b + m3 a * m1 b)
        (m0 a * m2 b + m2 a * m3 b)
        (m1 a * m2 b + m3 a * m3 b)
        (m0 a * m4 b + m2 a * m5 b + m4 a)
        (m1 a * m4 b + m3 a * m5 b + m5 a).

(** The determinant of the linear part; a matrix is invertible exactly
    when it is not zero. *)
Definition det (t : TMat2D) : Qc := m0 t * m3 t - m1 t * m2 t.

Definition invertible (t : TMat2D) : Prop := det t <> 0.

#[global] Instance invertible_dec t : Decision (invertible t).
Proof. unfold invertible. apply _. Defined.

(** Modelled from the spec: [invertTransform] of [util/misc/matrix],
    which is not part of the sources at hand; "invert(M) -> M⁻¹", which
    "fails or is undefined if M is singular".  On a singular matrix the
    division by the zero determinant is the one of [Qc] (it yields 0);
    no statement below relies on that value. *)
Definition invertTransform (t : TMat2D) : TMat2D :=
  let a := 1 / det t in
  let r0 := a * m3 t in
  let r1 := - a * m1 t in
  let r2 := - a * m2 t in
  let r3 := a * m0 t in
  mkMat r0 r1 r2 r3
        (- (r0 * m4 t + r2 * m5 t))
        (- (r1 * m4 t + r3 * m5 t)).

(** The class [Point] of [point.class], which is not part of the sources
    at hand: a pair of coordinates. *)
Module Point.

Record t : Type := mk { x : Qc; y : Qc }.

(** Modelled from the spec: the method [transform] of [Point]; it
    applies an affine matrix, "linear part + translation", to the
    point. *)
Definition transform (p : t) (m : TMat2D) : t :=
  mk (m0 m * x p + m2 m * y p + m4 m)
     (m1 m * x p + m3 m * y p + m5 m).

End Point.

#[global] Instance Point_eq_dec : EqDecision Point.t.
Proof. solve_decision. Defined.

(** ** [calcPlaneChangeMatrix] and [sendPointToPlane]

    An optional parameter with a default value takes the default when the
    argument is omitted or [undefined]; both are [None] here. *)

Definition calcPlaneChangeMatrix (from to : option TMat2D) : TMat2D :=
  let from := default iMatrix from in
  let to := default iMatrix to in
  multiplyTransformMatrices (invertTransform to) from.

Definition sendPointToPlane (point : Point.t) (from to : option TMat2D) : Point.t :=
  let from := default iMatrix from in
  let to := default iMatrix to in
  Point.transform point (calcPlaneChangeMatrix (Some from) (Some to)).

(** ** [transformPointRelativeToCanvas] *)

(** The [const enum ObjectRelation]: its members are the strings
    themselves.  The function checks its relation arguments at run time,
    so they are modelled as arbitrary strings. *)
Module ObjectRelation.
Definition sibling : string := "sibling".
Definition child : string := "child".
End ObjectRelation.

(** The only field of [StaticCanvas] the function reads. *)
Record StaticCanvas : Type := mkCanvas { viewportTransform : TMat2D }.

(** A call either returns a value or throws an [Error] with a message. *)
Inductive Result (A : Type) : Type :=
| Return (v : A)
| Throw (message : string).
Arguments Return {A} v.
Arguments Throw {A} message.

Definition transformPointRelativeToCanvas
    (point : Point.t) (canvas : StaticCanvas)
    (relationBefore relationAfter : string) : Result Point.t :=
  if bool_decide (relationBefore <> ObjectRelation.child
                  /\ relationBefore <> ObjectRelation.sibling)
  then Throw ("fabric.js: received bad argument " +:+ relationBefore)
  else if bool_decide (relationAfter <> ObjectRelation.child
                       /\ relationAfter <> ObjectRelation.sibling)
  then Throw ("fabric.js: received bad argument " +:+ relationAfter)
  else if bool_decide (relationBefore = relationAfter)
  then Return point
  else
    let t := viewportTransform canvas in
    Return (Point.transform point
              (if bool_decide (relationAfter = "child")
               then invertTransform t else t)).

(** ** Objects and the store *)

(** A reference to a [FabricObject]. *)
Definition ref : Type := nat.

(** The state of a [FabricObject] that the plane change reads or writes.
    [ownMatrix] stands for the position, scale and skew fields, kept as
    the matrix they compose to (the decomposition of a matrix into those
    fields belongs to [util/misc/matrix], outside the sources at hand);
    [angle] is the [angle] field; [group] is the parent group, absent
    for an object placed directly on the canvas. *)
Module FabricObject.

Record t : Type := mk {
  ownMatrix : TMat2D;
  angle : TDegree;
  group : option ref
}.

(** Modelled from the spec: the method [calcOwnMatrix] of
    [shapes/fabricObject.class], which is not part of the sources at
    hand; the node "exposes its own local matrix". *)
Definition calcOwnMatrix (o : t) : TMat2D := ownMatrix o.

End FabricObject.

#[global] Instance FabricObject_eq_dec : EqDecision FabricObject.t.
Proof. solve_decision. Defined.

Abbreviation Store := (gmap ref FabricObject.t).

(** Modelled from the spec: [applyTransformToObject] of
    [util/misc/objectTransforms], which is not part of the sources at
    hand; "Decompose that matrix back into the node's position/scale/skew
    fields and assign the computed angle, mutating the node in place". *)
Definition applyTransformToObject
    (s : Store) (object : ref) (transform : TMat2D) (angle : TDegree) : Store :=
  alter (fun o => FabricObject.mk transform angle (FabricObject.group o)) object s.

(** The value returned by [sendObjectToPlane], the object literal
    [{ transform: t, angle }]. *)
Module PlaneChange.

Record t : Type := mk {
  transform : TMat2D;
  angle : TDegree
}.

End PlaneChange.

#[global] Instance PlaneChange_eq_dec : EqDecision PlaneChange.t.
Proof. solve_decision. Defined.

(** [v || 0] on an optional number: [undefined] and [0] are falsy. *)
Definition or_zero (v : option TDegree) : TDegree :=
  match v with
  | Some x => if decide (x = 0) then 0 else x
  | None => 0
  end.

Section SendObjectToPlane.

(** The methods [calcTransformMatrix] and [getTotalAngle] of
    [shapes/fabricObject.class] are not part of the sources at hand and
    subclasses override them; they are taken as parameters: any
    functions of the current state of the scene and of the receiver. *)
Variable calcTransformMatrix : Store -> ref -> TMat2D.
Variable getTotalAngle : Store -> ref -> TDegree.

(** [args] are the arguments that follow [object] in the call, an
    omitted one and [undefined] being [None]; [arguments.length] is one
    more than their number.  A reference outside the store has no
    counterpart in the source: the result is [None] there. *)
Definition sendObjectToPlane
    (s : Store) (object : ref) (args : list (option ref))
    : option (Store * PlaneChange.t) :=
  o ← s !! object;
  let arg1 := mjoin (args !! 0%nat) in
  let arg2 := mjoin (args !! 1%nat) in
  let '(from, to) :=
    if decide (S (length args) = 3%nat)
    then (arg1, arg2)
    else (FabricObject.group o, arg1) in
  let t := calcPlaneChangeMatrix
             (calcTransformMatrix s <$> from)
             (calcTransformMatrix s <$> to) in
  let angle := FabricObject.angle o
               - or_zero (getTotalAngle s <$> from)
               + or_zero (getTotalAngle s <$> to) in
  let s' := applyTransformToObject s object
              (multiplyTransformMatrices t (FabricObject.calcOwnMatrix o))
              angle in
  Some (s', PlaneChange.mk t angle).

(** The plane and the cumulative angle of an optional node: the root
    plane, with the identity matrix and angle 0, when it is absent. *)
Definition planeMatrix (s : Store) (n : option ref) : TMat2D :=
  match n with Some r => calcTransformMatrix s r | None => iMatrix end.

Definition planeAngle (s : Store) (n : option ref) : TDegree :=
  match n with Some r => getTotalAngle s r | None => 0 end.

(** What the specification says a plane change from [from] to [to] does
    to the object [o] stored at [object], in the specification's words:
    [M = invert(to) · from] on the cumulative transforms, the new angle
    is [node.angle − from.cumulativeAngle + to.cumulativeAngle], the new
    local matrix is [multiply(M, node.ownLocalMatrix)]; the node is
    updated in place and [M] and the angle are returned. *)
Definition planeChangeOutcome
    (s : Store) (object : ref) (o : FabricObject.t) (from to : option ref)
    : Store * PlaneChange.t :=
  let M := multiplyTransformMatrices (invertTransform (planeMatrix s to))
                                     (planeMatrix s from) in
  let A := FabricObject.angle o - planeAngle s from + planeAngle s to in
  (<[object := FabricObject.mk
                 (multiplyTransformMatrices M (FabricObject.ownMatrix o))
                 A (FabricObject.group o)]> s,
   PlaneChange.mk M A).

End SendObjectToPlane.

(** A scene for the examples.

    Modelled from the spec: the methods [calcTransformMatrix] and
    [getTotalAngle] of [shapes/fabricObject.class], which are not part of
    the sources at hand; the cumulative transform is "the composition of
    a node's own local matrix with all its ancestors' matrices", and the
    node exposes "its cumulative rotation angle from root to itself".
    The walk up the chain of groups is bounded by [fuel]; it gives
    [None] when the bound is reached or a reference is outside the
    store. *)
Fixpoint chainTransform (fuel : nat) (s : Store) (r : ref) : option TMat2D :=
  match fuel with
  | O => None
  | S n =>
      o ← s !! r;
      match FabricObject.group o with
      | None => Some (FabricObject.calcOwnMatrix o)
      | Some g =>
          t ← chainTransform n s g;
          Some (multiplyTransformMatrices t (FabricObject.calcOwnMatrix o))
      end
  end.

Fixpoint chainAngle (fuel : nat) (s : Store) (r : ref) : option TDegree :=
  match fuel with
  | O => None
  | S n =>
      o ← s !! r;
      match FabricObject.group o with
      | None => Some (FabricObject.angle o)
      | Some g => a ← chainAngle n s g; Some (a + FabricObject.angle o)
      end
  end.

(** The methods as total functions, for a given bound. *)
Definition chainMatrix (fuel : nat) (s : Store) (r : ref) : TMat2D :=
  default iMatrix (chainTransform fuel s r).

(** A chain of groups without a cycle has at most [size s] nodes. *)
Definition sceneTransform (s : Store) (r : ref) : TMat2D :=
  chainMatrix (size s) s r.

Definition sceneAngle (s : Store) (r : ref) : TDegree :=
  default 0 (chainAngle (size s) s r).

(** The nodes the walk from [r] visits: [r] and its ancestors. *)
Fixpoint ancestors (fuel : nat) (s : Store) (r : ref) : list ref :=
  match fuel with
  | O => []
  | S n =>
      r :: match s !! r with
           | Some o =>
               match FabricObject.group o with
               | Some g => ancestors n s g
               | None => []
               end
           | None => []
           end
  end.

(** The re-parenting that the caller does after [sendObjectToPlane]: the
    assignment [object.group = to]. *)
Definition reparent (s : Store) (object : ref) (to : option ref) : Store :=
  alter (fun o => FabricObject.mk (FabricObject.ownMatrix o)
                                  (FabricObject.angle o) to) object s.

(** The relations [transformPointRelativeToCanvas] accepts. *)
Definition validRelation (r : string) : Prop :=
  r = ObjectRelation.child \/ r = ObjectRelation.sibling.

#[global] Instance validRelation_dec r : Decision (validRelation r).
Proof. unfold validRelation. apply _. Defined.

(** The message of the error thrown for a bad relation argument. *)
Definition badArgument (v : string) : string :=
  "fabric.js: received bad argument " +:+ v.

(** Integer literals. *)
Definition num (z : Z) : Qc := Q2Qc (inject_Z z).

(** The scenario of the specification: a node at local (50,50) inside a
    group that translates by (30,30); a second group, placed on the
    canvas, scales by 2 and turns by a quarter. *)
Definition exampleGroup : FabricObject.t :=
  FabricObject.mk (mkMat 1 0 0 1 (num 30) (num 30)) 0 None.

Definition exampleNode : FabricObject.t :=
  FabricObject.mk (mkMat 1 0 0 1 (num 50) (num 50)) 0 (Some 1%nat).

Definition exampleTarget : FabricObject.t :=
  FabricObject.mk (mkMat 0 2 (- 2) 0 (num 5) (num 7)) (num 90) None.

Definition exampleScene : Store :=
  <[1%nat := exampleGroup]> (<[2%nat := exampleNode]> (<[3%nat := exampleTarget]> ∅)).

(** * Properties *)

(** *** Laws of the matrix algebra *)

Ltac mat_eq :=
  unfold multiplyTransformMatrices, invertTransform, iMatrix, det; simpl;
  f_equal; try ring.

Lemma multiply_assoc (a b c : TMat2D) :
  multiplyTransformMatrices a (multiplyTransformMatrices b c)
  = multiplyTransformMatrices (multiplyTransformMatrices a b) c.
Proof. mat_eq. Qed.

Lemma multiply_iMatrix_l (a : TMat2D) : multiplyTransformMatrices iMatrix a = a.
Proof. destruct a. mat_eq. Qed.

Lemma multiply_iMatrix_r (a : TMat2D) : multiplyTransformMatrices a iMatrix = a.
Proof. destruct a. mat_eq. Qed.

Lemma invert_iMatrix : invertTransform iMatrix = iMatrix.
Proof. unfold invertTransform, iMatrix, det; simpl. f_equal; field; discriminate. Qed.

Lemma invert_multiply_l (x : TMat2D) :
  invertible x -> multiplyTransformMatrices (invertTransform x) x = iMatrix.
Proof.
  unfold invertible, det. intros Hx. destruct x as [a b c d e f]; simpl in *.
  unfold multiplyTransformMatrices, invertTransform, iMatrix, det; simpl.
  f_equal; field; exact Hx.
Qed.

Lemma invert_multiply_r (x : TMat2D) :
  invertible x -> multiplyTransformMatrices x (invertTransform x) = iMatrix.
Proof.
  unfold invertible, det. intros Hx. destruct x as [a b c d e f]; simpl in *.
  unfold multiplyTransformMatrices, invertTransform, iMatrix, det; simpl.
  f_equal; field; exact Hx.
Qed.

(** The inverse undoes the map on points, on either side: this is what
    applying the inverse of a transform to a point means. *)
Lemma transform_invert (p : Point.t) (t : TMat2D) :
  invertible t ->
  Point.transform (Point.transform p t) (invertTransform t) = p
  /\ Point.transform (Point.transform p (invertTransform t)) t = p.
Proof.
  unfold invertible, det. intros Ht. destruct t as [a b c d e f], p as [x y].
  unfold Point.transform, invertTransform, det; simpl in *.
  split; f_equal; field; exact Ht.
Qed.

Lemma transform_multiply (p : Point.t) (a b : TMat2D) :
  Point.transform p (multiplyTransformMatrices a b)
  = Point.transform (Point.transform p b) a.
Proof.
  destruct p. unfold Point.transform, multiplyTransformMatrices; simpl.
  f_equal; ring.
Qed.

(** ** The plane-change matrix *)

(** C2.  [calcPlaneChangeMatrix from to] is
    [multiplyTransformMatrices (invertTransform to) from]; an omitted
    argument is taken to be the identity matrix, and the call without
    arguments yields the identity. *)
Theorem calcPlaneChangeMatrix_spec :
  (forall from to : TMat2D,
      calcPlaneChangeMatrix (Some from) (Some to)
      = multiplyTransformMatrices (invertTransform to) from)
  /\ (forall to : option TMat2D,
         calcPlaneChangeMatrix None to = calcPlaneChangeMatrix (Some iMatrix) to)
  /\ (forall from : option TMat2D,
         calcPlaneChangeMatrix from None = calcPlaneChangeMatrix from (Some iMatrix))
  /\ calcPlaneChangeMatrix None None = iMatrix.
Proof.
  split; [reflexivity|]. split; [reflexivity|]. split; [reflexivity|].
  unfold calcPlaneChangeMatrix; simpl.
  rewrite invert_iMatrix. apply multiply_iMatrix_l.
Qed.

(** C3.  Identity law: for an invertible matrix [x], the plane change
    from [x] to [x] is the identity; so is the plane change between the
    default planes. *)
Theorem calcPlaneChangeMatrix_same (x : TMat2D) :
  invertible x ->
  calcPlaneChangeMatrix (Some x) (Some x) = iMatrix
  /\ calcPlaneChangeMatrix None None = iMatrix
  /\ calcPlaneChangeMatrix (Some iMatrix) (Some iMatrix) = iMatrix.
Proof.
  intros Hx. unfold calcPlaneChangeMatrix; simpl. split.
  - apply invert_multiply_l, Hx.
  - rewrite invert_iMatrix, multiply_iMatrix_l. split; reflexivity.
Qed.

(** C8.  Inverse consistency: for invertible [a] and [b], the plane
    change from [a] to [b] composed with the one from [b] to [a] is the
    identity, in either order of composition. *)
Theorem calcPlaneChangeMatrix_inverse (a b : TMat2D) :
  invertible a -> invertible b ->
  multiplyTransformMatrices (calcPlaneChangeMatrix (Some a) (Some b))
                            (calcPlaneChangeMatrix (Some b) (Some a)) = iMatrix
  /\ multiplyTransformMatrices (calcPlaneChangeMatrix (Some b) (Some a))
                               (calcPlaneChangeMatrix (Some a) (Some b)) = iMatrix.
Proof.
  intros Ha Hb. unfold calcPlaneChangeMatrix; simpl.
  assert (Hmid : forall x y : TMat2D, invertible x -> invertible y ->
    multiplyTransformMatrices
      (multiplyTransformMatrices (invertTransform y) x)
      (multiplyTransformMatrices (invertTransform x) y) = iMatrix).
  { intros x y Hx Hy.
    rewrite multiply_assoc.
    rewrite <- (multiply_assoc (invertTransform y) x (invertTransform x)).
    rewrite (invert_multiply_r x Hx), multiply_iMatrix_r.
    apply invert_multiply_l, Hy. }
  split; apply Hmid; assumption.
Qed.

Lemma calcPlaneChangeMatrix_same_witness :
  invertible (mkMat 2 0 0 2 (num 30) (num 30))
  /\ calcPlaneChangeMatrix (Some (mkMat 2 0 0 2 (num 30) (num 30)))
                           (Some (mkMat 2 0 0 2 (num 30) (num 30))) = iMatrix.
Proof.
  split.
  - vm_compute. discriminate.
  - apply (calcPlaneChangeMatrix_same (mkMat 2 0 0 2 (num 30) (num 30))).
    vm_compute. discriminate.
Defined.

Lemma calcPlaneChangeMatrix_inverse_witness :
  multiplyTransformMatrices
    (calcPlaneChangeMatrix (Some (mkMat 2 0 0 2 (num 30) (num 30)))
                           (Some (mkMat 0 1 (- 1) 0 (num 5) (num 7))))
    (calcPlaneChangeMatrix (Some (mkMat 0 1 (- 1) 0 (num 5) (num 7)))
                           (Some (mkMat 2 0 0 2 (num 30) (num 30)))) = iMatrix.
Proof.
  apply (calcPlaneChangeMatrix_inverse
           (mkMat 2 0 0 2 (num 30) (num 30)) (mkMat 0 1 (- 1) 0 (num 5) (num 7)));
    vm_compute; discriminate.
Defined.

(** ** Points relative to the canvas *)

Lemma validRelation_check (r : string) :
  bool_decide (r <> ObjectRelation.child /\ r <> ObjectRelation.sibling) = true
  <-> ~ validRelation r.
Proof.
  unfold validRelation. rewrite bool_decide_eq_true. tauto.
Qed.

Lemma transformPointRelativeToCanvas_bad_before point canvas rb ra :
  ~ validRelation rb ->
  transformPointRelativeToCanvas point canvas rb ra = Throw (badArgument rb).
Proof.
  intros Hb. apply validRelation_check in Hb.
  unfold transformPointRelativeToCanvas. rewrite Hb. reflexivity.
Qed.

Lemma transformPointRelativeToCanvas_bad_after point canvas rb ra :
  validRelation rb -> ~ validRelation ra ->
  transformPointRelativeToCanvas point canvas rb ra = Throw (badArgument ra).
Proof.
  intros Hb Ha. apply validRelation_check in Ha.
  unfold transformPointRelativeToCanvas.
  rewrite (bool_decide_eq_false_2
             (rb <> ObjectRelation.child /\ rb <> ObjectRelation.sibling)).
  - rewrite Ha. reflexivity.
  - unfold validRelation in Hb. tauto.
Qed.

(** C5.  When one of the two relation arguments is neither [child] nor
    [sibling], the call throws; the message carries an offending value
    (the first of the two that is bad), and the outcome is the same
    error whatever the point and the canvas are: nothing is
    transformed and no relation is substituted for the bad one. *)
Theorem transformPointRelativeToCanvas_invalid (rb ra : string) :
  ~ validRelation rb \/ ~ validRelation ra ->
  exists bad : string,
    ~ validRelation bad
    /\ (~ validRelation rb -> bad = rb)
    /\ (validRelation rb -> bad = ra)
    /\ forall point canvas,
         transformPointRelativeToCanvas point canvas rb ra
         = Throw ("fabric.js: received bad argument " +:+ bad).
Proof.
  intros H. destruct (decide (validRelation rb)) as [Hb|Hb].
  - assert (Ha : ~ validRelation ra) by tauto.
    exists ra. repeat split; try tauto.
    intros. now apply transformPointRelativeToCanvas_bad_after.
  - exists rb. repeat split; try tauto.
    intros. now apply transformPointRelativeToCanvas_bad_before.
Qed.

Lemma transformPointRelativeToCanvas_invalid_witness :
  exists bad : string,
    ~ validRelation bad
    /\ (~ validRelation "child" -> bad = "child")
    /\ (validRelation "child" -> bad = "parent")
    /\ forall point canvas,
         transformPointRelativeToCanvas point canvas "child" "parent"
         = Throw ("fabric.js: received bad argument " +:+ bad).
Proof.
  apply (transformPointRelativeToCanvas_invalid "child" "parent").
  right. vm_compute. intros [H|H]; discriminate H.
Defined.

(** C6.  With the same valid relation before and after, the point comes
    back as it is, whatever the canvas transform is. *)
Theorem transformPointRelativeToCanvas_same point canvas (r : string) :
  validRelation r ->
  transformPointRelativeToCanvas point canvas r r = Return point.
Proof.
  intros Hr. unfold transformPointRelativeToCanvas.
  case_bool_decide as H1.
  { exfalso. unfold validRelation in Hr. tauto. }
  rewrite bool_decide_eq_true_2 by reflexivity. reflexivity.
Qed.

Lemma transformPointRelativeToCanvas_same_witness :
  validRelation "sibling"
  /\ transformPointRelativeToCanvas
       (Point.mk (num 50) (num 50)) (mkCanvas (mkMat 0 0 0 0 0 0))
       "sibling" "sibling"
     = Return (Point.mk (num 50) (num 50)).
Proof.
  split.
  - right. reflexivity.
  - apply transformPointRelativeToCanvas_same. right. reflexivity.
Defined.

(** C7.  With two valid relations that differ, the point is mapped by
    the inverse of the canvas' [viewportTransform] on the way from
    [sibling] to [child], and by the [viewportTransform] itself on the
    way from [child] to [sibling]. *)
Theorem transformPointRelativeToCanvas_change point canvas (rb ra : string) :
  validRelation rb -> validRelation ra -> rb <> ra ->
  (rb = ObjectRelation.sibling /\ ra = ObjectRelation.child
   /\ transformPointRelativeToCanvas point canvas rb ra
      = Return (Point.transform point (invertTransform (viewportTransform canvas))))
  \/ (rb = ObjectRelation.child /\ ra = ObjectRelation.sibling
      /\ transformPointRelativeToCanvas point canvas rb ra
         = Return (Point.transform point (viewportTransform canvas))).
Proof.
  intros [Hb|Hb] [Ha|Ha] Hne; subst; try congruence.
  - right. repeat split.
  - left. repeat split.
Qed.

Lemma transformPointRelativeToCanvas_change_witness :
  validRelation "sibling" /\ validRelation "child" /\ "sibling" <> "child"
  /\ transformPointRelativeToCanvas
       (Point.mk (num 50) (num 50)) (mkCanvas (mkMat 2 0 0 2 (num 30) (num 30)))
       "sibling" "child"
     = Return (Point.transform (Point.mk (num 50) (num 50))
                 (invertTransform (mkMat 2 0 0 2 (num 30) (num 30)))).
Proof.
  assert (Hs : validRelation "sibling") by (right; reflexivity).
  assert (Hc : validRelation "child") by (left; reflexivity).
  assert (Hne : "sibling" <> "child") by discriminate.
  split; [exact Hs|]. split; [exact Hc|]. split; [exact Hne|].
  destruct (transformPointRelativeToCanvas_change
              (Point.mk (num 50) (num 50))
              (mkCanvas (mkMat 2 0 0 2 (num 30) (num 30)))
              "sibling" "child" Hs Hc Hne) as [(_ & _ & H)|(H & _)].
  - exact H.
  - discriminate H.
Defined.

(** The canvas zooms by 2 and pans by (30,30): the point (50,50) of the
    viewer is the point (10,10) of the canvas plane, and back. *)
Example transformPointRelativeToCanvas_zoom :
  transformPointRelativeToCanvas
    (Point.mk (num 50) (num 50)) (mkCanvas (mkMat 2 0 0 2 (num 30) (num 30)))
    "sibling" "child" = Return (Point.mk (num 10) (num 10))
  /\ transformPointRelativeToCanvas
       (Point.mk (num 10) (num 10)) (mkCanvas (mkMat 2 0 0 2 (num 30) (num 30)))
       "child" "sibling" = Return (Point.mk (num 50) (num 50)).
Proof.
  split; vm_compute; do 2 f_equal; apply Qc_is_canon; reflexivity.
Qed.

(** Round trip: from the viewer's plane to the canvas plane and back,
    when the [viewportTransform] is invertible. *)
Lemma transformPointRelativeToCanvas_round_trip (p : Point.t) (canvas : StaticCanvas) :
  invertible (viewportTransform canvas) ->
  exists q : Point.t,
    transformPointRelativeToCanvas p canvas "sibling" "child" = Return q
    /\ transformPointRelativeToCanvas q canvas "child" "sibling" = Return p.
Proof.
  intros Ht. eexists. split; [reflexivity|].
  unfold transformPointRelativeToCanvas; simpl.
  f_equal. apply transform_invert, Ht.
Qed.

(** ** Sending an object to a plane *)

Lemma or_zero_Some (x : TDegree) : or_zero (Some x) = x.
Proof. unfold or_zero. case_decide; congruence. Qed.

Lemma alter_present (f : FabricObject.t -> FabricObject.t)
    (s : Store) (r : ref) (o : FabricObject.t) :
  s !! r = Some o -> alter f r s = <[r := f o]> s.
Proof.
  intros Hr. apply map_eq. intros i.
  destruct (decide (r = i)) as [->|Hne].
  - rewrite lookup_alter_eq, lookup_insert_eq, Hr. reflexivity.
  - rewrite lookup_alter_ne, lookup_insert_ne by assumption. reflexivity.
Qed.

Section SendObjectToPlaneProperties.

Variable calcTransformMatrix : Store -> ref -> TMat2D.
Variable getTotalAngle : Store -> ref -> TDegree.

Local Abbreviation send := (sendObjectToPlane calcTransformMatrix getTotalAngle).
Local Abbreviation outcome := (planeChangeOutcome calcTransformMatrix getTotalAngle).
Local Abbreviation plane := (planeMatrix calcTransformMatrix).

Lemma calcPlaneChangeMatrix_planes (s : Store) (from to : option ref) :
  calcPlaneChangeMatrix (calcTransformMatrix s <$> from)
                        (calcTransformMatrix s <$> to)
  = calcPlaneChangeMatrix (Some (plane s from)) (Some (plane s to)).
Proof. destruct from, to; reflexivity. Qed.

Lemma or_zero_planeAngle (s : Store) (n : option ref) :
  or_zero (getTotalAngle s <$> n) = planeAngle getTotalAngle s n.
Proof. destruct n; simpl; [apply or_zero_Some | reflexivity]. Qed.

Lemma sendObjectToPlane_from_to (s : Store) (object : ref) (o : FabricObject.t)
    (args : list (option ref)) (from to : option ref) :
  s !! object = Some o ->
  (if decide (S (length args) = 3%nat)
   then (mjoin (args !! 0%nat), mjoin (args !! 1%nat))
   else (FabricObject.group o, mjoin (args !! 0%nat))) = (from, to) ->
  send s object args = Some (outcome s object o from to).
Proof.
  intros Ho Hargs. unfold sendObjectToPlane. rewrite Ho. simpl.
  rewrite Hargs.
  rewrite calcPlaneChangeMatrix_planes, !or_zero_planeAngle.
  unfold applyTransformToObject. rewrite (alter_present _ _ _ _ Ho).
  reflexivity.
Qed.

Lemma sendObjectToPlane_three (s : Store) (object : ref) (o : FabricObject.t)
    (from to : option ref) :
  s !! object = Some o ->
  send s object [from; to] = Some (outcome s object o from to).
Proof. intros Ho. now apply sendObjectToPlane_from_to. Qed.

Lemma sendObjectToPlane_two (s : Store) (object : ref) (o : FabricObject.t)
    (to : option ref) :
  s !! object = Some o ->
  send s object [to] = Some (outcome s object o (FabricObject.group o) to).
Proof. intros Ho. now apply sendObjectToPlane_from_to. Qed.

Lemma sendObjectToPlane_one (s : Store) (object : ref) (o : FabricObject.t) :
  s !! object = Some o ->
  send s object [] = Some (outcome s object o (FabricObject.group o) None).
Proof. intros Ho. now apply sendObjectToPlane_from_to. Qed.

(** C1.  For an object [o] stored at [object] and optional nodes [from]
    and [to], the three-argument call computes the plane-change matrix
    of the cumulative transforms of [from] and [to] (the identity for an
    absent node), the angle [o.angle - from's cumulative angle + to's
    cumulative angle] (0 for an absent node), replaces the local matrix
    of the object in the store by the product of the plane-change
    matrix and its own matrix, assigns the angle, and returns that
    matrix and that angle; the two-argument call does the same with the
    object's parent group as [from]. *)
Theorem sendObjectToPlane_spec (s : Store) (object : ref) (o : FabricObject.t)
    (from to : option ref) :
  s !! object = Some o ->
  let M := fun from to =>
    calcPlaneChangeMatrix (Some (plane s from)) (Some (plane s to)) in
  let A := fun from to =>
    FabricObject.angle o - planeAngle getTotalAngle s from
                         + planeAngle getTotalAngle s to in
  let moved := fun from to =>
    FabricObject.mk
      (multiplyTransformMatrices (M from to) (FabricObject.calcOwnMatrix o))
      (A from to) (FabricObject.group o) in
  send s object [from; to]
  = Some (<[object := moved from to]> s, PlaneChange.mk (M from to) (A from to))
  /\ send s object [to]
     = Some (<[object := moved (FabricObject.group o) to]> s,
             PlaneChange.mk (M (FabricObject.group o) to)
                            (A (FabricObject.group o) to)).
Proof.
  intros Ho M A moved. split.
  - rewrite (sendObjectToPlane_three s object o from to Ho). reflexivity.
  - rewrite (sendObjectToPlane_two s object o to Ho). reflexivity.
Qed.

Lemma outcome_visual_invariance (s : Store) (object : ref) (o : FabricObject.t)
    (from to : option ref) :
  invertible (plane s to) ->
  exists o',
    (outcome s object o from to).1 !! object = Some o'
    /\ FabricObject.group o' = FabricObject.group o
    /\ multiplyTransformMatrices (plane s to) (FabricObject.calcOwnMatrix o')
       = multiplyTransformMatrices (plane s from) (FabricObject.calcOwnMatrix o).
Proof.
  intros Hto. eexists. split; [apply lookup_insert_eq|]. split; [reflexivity|].
  unfold FabricObject.calcOwnMatrix; simpl.
  rewrite !multiply_assoc.
  rewrite (invert_multiply_r _ Hto), multiply_iMatrix_l. reflexivity.
Qed.

(** C4.  Visual invariance: when the cumulative transform of the
    destination is invertible (nothing is asked of the source's), the
    call returns, and the destination's cumulative transform composed
    with the object's new local matrix equals the source's cumulative
    transform composed with its old local matrix.  In the two-argument
    call the source is the object's parent group, so the right-hand side
    is the object's own cumulative transform before the call.  The
    cumulative transforms are the ones the call reads, in the state
    before it. *)
Theorem sendObjectToPlane_visual_invariance (s : Store) (object : ref)
    (o : FabricObject.t) (from to : option ref) :
  s !! object = Some o ->
  invertible (plane s to) ->
  (exists s' res o',
      send s object [from; to] = Some (s', res)
      /\ s' !! object = Some o'
      /\ multiplyTransformMatrices (plane s to) (FabricObject.calcOwnMatrix o')
         = multiplyTransformMatrices (plane s from) (FabricObject.calcOwnMatrix o))
  /\ (exists s' res o',
         send s object [to] = Some (s', res)
         /\ s' !! object = Some o'
         /\ multiplyTransformMatrices (plane s to) (FabricObject.calcOwnMatrix o')
            = multiplyTransformMatrices (plane s (FabricObject.group o))
                                        (FabricObject.calcOwnMatrix o)).
Proof.
  intros Ho Hto. split.
  - destruct (outcome_visual_invariance s object o from to Hto) as (o' & H1 & _ & H2).
    exists (outcome s object o from to).1, (outcome s object o from to).2, o'.
    rewrite (sendObjectToPlane_three s object o from to Ho).
    rewrite <- surjective_pairing. auto.
  - destruct (outcome_visual_invariance s object o (FabricObject.group o) to Hto)
      as (o' & H1 & _ & H2).
    exists (outcome s object o (FabricObject.group o) to).1,
           (outcome s object o (FabricObject.group o) to).2, o'.
    rewrite (sendObjectToPlane_two s object o to Ho).
    rewrite <- surjective_pairing. auto.
Qed.

(** C9.  Frame: a call that returns leaves every object other than the
    passed one as it was (so [from] and [to], and the parent group, when
    they are other objects), keeps the passed object's parent-group
    reference, and neither adds nor removes objects; of the passed
    object only the local matrix and the angle are assigned. *)
Theorem sendObjectToPlane_frame (s s' : Store) (object : ref)
    (args : list (option ref)) (res : PlaneChange.t) :
  send s object args = Some (s', res) ->
  (forall r : ref, r <> object -> s' !! r = s !! r)
  /\ FabricObject.group <$> s' !! object = FabricObject.group <$> s !! object
  /\ dom s' = dom s.
Proof.
  unfold sendObjectToPlane. intros H.
  destruct (s !! object) as [o|] eqn:Ho; simpl in H; [|discriminate].
  destruct (if decide (S (length args) = 3%nat) then _ else _) as [from to].
  injection H as <- _. unfold applyTransformToObject.
  split; [|split].
  - intros r Hr. apply lookup_alter_ne. congruence.
  - rewrite lookup_alter_eq, Ho. reflexivity.
  - apply dom_alter_L.
Qed.

(** C10.  The form of the call is chosen by the number of arguments: with
    two arguments the source plane is the parent group's, also when the
    second argument is [undefined]; with three arguments and [from]
    undefined the source plane is the root plane and the parent group
    plays no part; so the two calls with [undefined] arguments differ
    when the parent group's cumulative transform is not the identity. *)
Theorem sendObjectToPlane_by_argument_count (s : Store) (object : ref)
    (o : FabricObject.t) :
  s !! object = Some o ->
  (forall arg1 : option ref,
      send s object [arg1] = send s object [FabricObject.group o; arg1])
  /\ (forall to : option ref,
         send s object [None; to]
         = Some (<[object := FabricObject.mk
                     (multiplyTransformMatrices
                        (multiplyTransformMatrices (invertTransform (plane s to)) iMatrix)
                        (FabricObject.calcOwnMatrix o))
                     (FabricObject.angle o - 0 + planeAngle getTotalAngle s to)
                     (FabricObject.group o)]> s,
                 PlaneChange.mk
                   (multiplyTransformMatrices (invertTransform (plane s to)) iMatrix)
                   (FabricObject.angle o - 0 + planeAngle getTotalAngle s to)))
  /\ (forall g : ref,
         FabricObject.group o = Some g ->
         calcTransformMatrix s g <> iMatrix ->
         send s object [None] <> send s object [None; None]
         /\ (exists s2 s3 a2 a3,
                send s object [None]
                = Some (s2, PlaneChange.mk (calcTransformMatrix s g) a2)
                /\ send s object [None; None]
                   = Some (s3, PlaneChange.mk iMatrix a3))).
Proof.
  intros Ho. split; [|split].
  - intros arg1.
    rewrite (sendObjectToPlane_two s object o arg1 Ho).
    rewrite (sendObjectToPlane_three s object o _ arg1 Ho). reflexivity.
  - intros to. rewrite (sendObjectToPlane_three s object o None to Ho). reflexivity.
  - intros g Hg Hne.
    rewrite (sendObjectToPlane_two s object o None Ho).
    rewrite (sendObjectToPlane_three s object o None None Ho).
    unfold planeChangeOutcome. rewrite Hg. simpl.
    rewrite invert_iMatrix, !multiply_iMatrix_l. split.
    + intros Heq. injection Heq as _ Hm _. contradiction.
    + do 4 eexists. split; reflexivity.
Qed.

End SendObjectToPlaneProperties.

(** ** Re-parenting in a scene of nested groups

    The cumulative transforms are now the walks up the chains of
    groups: after the plane change and the caller's re-parenting, the
    walk from the object gives the matrix it gave before. *)

Lemma chainTransform_S (n : nat) (s : Store) (r : ref) :
  chainTransform (S n) s r
  = o ← s !! r;
    match FabricObject.group o with
    | None => Some (FabricObject.calcOwnMatrix o)
    | Some g =>
        t ← chainTransform n s g;
        Some (multiplyTransformMatrices t (FabricObject.calcOwnMatrix o))
    end.
Proof. reflexivity. Qed.

Lemma chainTransform_more (n : nat) (s : Store) (r : ref) (t : TMat2D) :
  chainTransform n s r = Some t -> chainTransform (S n) s r = Some t.
Proof.
  revert r t. induction n as [|n IH]; intros r t H; [discriminate H|].
  rewrite chainTransform_S in H. rewrite chainTransform_S.
  destruct (s !! r) as [o|]; simpl in *; [|discriminate H].
  destruct (FabricObject.group o) as [g|]; [|exact H].
  destruct (chainTransform n s g) as [tg|] eqn:Hg; simpl in H; [|discriminate H].
  rewrite (IH g tg Hg). exact H.
Qed.

Lemma chainTransform_frame (n : nat) (s s' : Store) (object r : ref) :
  (forall r' : ref, r' <> object -> s' !! r' = s !! r') ->
  object ∉ ancestors n s r ->
  chainTransform n s' r = chainTransform n s r.
Proof.
  intros Hframe. revert r. induction n as [|n IH]; intros r Hr; [reflexivity|].
  simpl in *. apply not_elem_of_cons in Hr as [Hne Hr].
  rewrite (Hframe r) by congruence.
  destruct (s !! r) as [o|]; simpl; [|reflexivity].
  destruct (FabricObject.group o) as [g|]; [|reflexivity].
  rewrite (IH g Hr). reflexivity.
Qed.

(** X16.  In a scene of nested groups, where the cumulative transform of
    a node is the product of the matrices along its chain of groups:
    after the two-argument call and the assignment of [to] to the
    object's [group], the cumulative transform of the object is the one
    it had before; the object is none of the ancestors of [to], and the
    cumulative transform of [to] is invertible. *)
Lemma sendObjectToPlane_then_reparent (n : nat)
    (getTotalAngle : Store -> ref -> TDegree)
    (s : Store) (object : ref) (o : FabricObject.t) (to : option ref)
    (before : TMat2D) :
  s !! object = Some o ->
  chainTransform (S n) s object = Some before ->
  (forall d : ref, to = Some d ->
     (object ∉ ancestors n s d)
     /\ (exists t, chainTransform n s d = Some t /\ invertible t)) ->
  exists s' res,
    sendObjectToPlane (chainMatrix n) getTotalAngle s object [to] = Some (s', res)
    /\ chainTransform (S n) (reparent s' object to) object = Some before.
Proof.
  intros Ho Hbefore Hto.
  rewrite (sendObjectToPlane_two _ _ s object o to Ho).
  eexists _, _. split; [reflexivity|].
  assert (Hfrom :
    before = multiplyTransformMatrices
               (planeMatrix (chainMatrix n) s (FabricObject.group o))
               (FabricObject.ownMatrix o)).
  { rewrite chainTransform_S, Ho in Hbefore. simpl in Hbefore.
    unfold FabricObject.calcOwnMatrix in Hbefore.
    destruct (FabricObject.group o) as [g|]; simpl.
    - unfold chainMatrix.
      destruct (chainTransform n s g) as [tg|]; simpl in *; congruence.
    - rewrite multiply_iMatrix_l. congruence. }
  assert (Hinv : invertible (planeMatrix (chainMatrix n) s to)).
  { destruct to as [d|]; simpl.
    - destruct (Hto d eq_refl) as (_ & t & Ht & Hinv).
      unfold chainMatrix. rewrite Ht. exact Hinv.
    - vm_compute. discriminate. }
  unfold reparent.
  rewrite chainTransform_S, lookup_alter_eq, lookup_insert_eq. simpl.
  unfold FabricObject.calcOwnMatrix; simpl.
  rewrite Hfrom.
  destruct to as [d|]; simpl in *.
  - destruct (Hto d eq_refl) as (Hd & t & Ht & _).
    rewrite (chainTransform_frame n s _ object d).
    + unfold chainMatrix in *. rewrite Ht in *. simpl in *.
      rewrite !multiply_assoc, (invert_multiply_r _ Hinv), multiply_iMatrix_l.
      reflexivity.
    + intros r' Hr'. rewrite lookup_alter_ne, lookup_insert_ne by congruence.
      reflexivity.
    + exact Hd.
  - rewrite invert_iMatrix, !multiply_iMatrix_l. reflexivity.
Qed.

(** ** The scenario of the specification *)

Ltac by_evaluation := apply (bool_decide_unpack _); vm_compute; exact I.

Lemma exampleScene_transforms :
  sceneTransform exampleScene 1%nat = mkMat 1 0 0 1 (num 30) (num 30)
  /\ sceneTransform exampleScene 2%nat = mkMat 1 0 0 1 (num 80) (num 80)
  /\ sceneTransform exampleScene 3%nat = mkMat 0 2 (- 2) 0 (num 5) (num 7).
Proof. repeat split; by_evaluation. Qed.

Lemma sendObjectToPlane_spec_witness :
  exampleScene !! 2%nat = Some exampleNode
  /\ sendObjectToPlane sceneTransform sceneAngle exampleScene 2%nat [None]
     = Some (<[2%nat := FabricObject.mk (mkMat 1 0 0 1 (num 80) (num 80)) 0
                                        (Some 1%nat)]> exampleScene,
             PlaneChange.mk (mkMat 1 0 0 1 (num 30) (num 30)) 0).
Proof.
  assert (Ho : exampleScene !! 2%nat = Some exampleNode) by reflexivity.
  split; [exact Ho|].
  destruct (sendObjectToPlane_spec sceneTransform sceneAngle
              exampleScene 2%nat exampleNode None None Ho) as [_ H].
  rewrite H. by_evaluation.
Defined.

Lemma sendObjectToPlane_visual_invariance_witness :
  exists s' res o',
    sendObjectToPlane sceneTransform sceneAngle exampleScene 2%nat
                      [Some 1%nat; Some 3%nat] = Some (s', res)
    /\ s' !! 2%nat = Some o'
    /\ multiplyTransformMatrices (sceneTransform exampleScene 3%nat)
                                 (FabricObject.calcOwnMatrix o')
       = multiplyTransformMatrices (sceneTransform exampleScene 1%nat)
                                   (FabricObject.calcOwnMatrix exampleNode).
Proof.
  assert (Ho : exampleScene !! 2%nat = Some exampleNode) by reflexivity.
  assert (Hto : invertible (planeMatrix sceneTransform exampleScene (Some 3%nat)))
    by (vm_compute; discriminate).
  destruct (sendObjectToPlane_visual_invariance sceneTransform sceneAngle
              exampleScene 2%nat exampleNode (Some 1%nat) (Some 3%nat) Ho Hto)
    as [H _].
  exact H.
Defined.

Lemma sendObjectToPlane_frame_witness :
  exists s' res,
    sendObjectToPlane sceneTransform sceneAngle exampleScene 2%nat [Some 3%nat]
    = Some (s', res)
    /\ s' !! 1%nat = Some exampleGroup
    /\ s' !! 3%nat = Some exampleTarget
    /\ FabricObject.group <$> s' !! 2%nat = Some (Some 1%nat).
Proof.
  destruct (sendObjectToPlane sceneTransform sceneAngle exampleScene 2%nat
              [Some 3%nat]) as [[s' res]|] eqn:Hsend; [|discriminate Hsend].
  exists s', res. split; [reflexivity|].
  destruct (sendObjectToPlane_frame sceneTransform sceneAngle
              exampleScene s' 2%nat [Some 3%nat] res Hsend) as (Hother & Hgroup & _).
  split; [|split].
  - rewrite Hother by discriminate. reflexivity.
  - rewrite Hother by discriminate. reflexivity.
  - etrans; [exact Hgroup | reflexivity].
Defined.

Lemma sendObjectToPlane_by_argument_count_witness :
  exampleScene !! 2%nat = Some exampleNode
  /\ sceneTransform exampleScene 1%nat <> iMatrix
  /\ sendObjectToPlane sceneTransform sceneAngle exampleScene 2%nat [None]
     <> sendObjectToPlane sceneTransform sceneAngle exampleScene 2%nat [None; None].
Proof.
  assert (Ho : exampleScene !! 2%nat = Some exampleNode) by reflexivity.
  assert (Hne : sceneTransform exampleScene 1%nat <> iMatrix)
    by (vm_compute; discriminate).
  split; [exact Ho|]. split; [exact Hne|].
  destruct (sendObjectToPlane_by_argument_count sceneTransform sceneAngle
              exampleScene 2%nat exampleNode Ho) as (_ & _ & H).
  destruct (H 1%nat eq_refl Hne) as [Hdiff _].
  exact Hdiff.
Defined.

(** The node of the scenario, sent from its group to the second group
    and re-parented there, is still at (80,80) on the canvas. *)
Lemma sendObjectToPlane_then_reparent_witness :
  exists s' res,
    sendObjectToPlane (chainMatrix 2) sceneAngle exampleScene 2%nat [Some 3%nat]
    = Some (s', res)
    /\ chainTransform 3 (reparent s' 2%nat (Some 3%nat)) 2%nat
       = Some (mkMat 1 0 0 1 (num 80) (num 80)).
Proof.
  apply (sendObjectToPlane_then_reparent 2 sceneAngle exampleScene 2%nat exampleNode).
  - reflexivity.
  - by_evaluation.
  - intros d [= <-]. split.
    + vm_compute. intros H. inversion H as [|? ? ? H']. inversion H'.
    + eexists. split; [reflexivity|]. vm_compute. discriminate.
Defined.

(** * Further properties of the plane changes *)

(** ** Determinants and inverses *)

Lemma det_multiply (a b : TMat2D) :
  det (multiplyTransformMatrices a b) = det a * det b.
Proof. unfold det, multiplyTransformMatrices; simpl. ring. Qed.

Lemma det_invert (x : TMat2D) :
  invertible x -> det (invertTransform x) = 1 / det x.
Proof.
  unfold invertible, det. intros Hx. destruct x as [a b c d e f]; simpl in *.
  unfold invertTransform, det; simpl. field. exact Hx.
Qed.

Lemma invertible_iMatrix : invertible iMatrix.
Proof. vm_compute. discriminate. Qed.

Lemma invertible_multiply (a b : TMat2D) :
  invertible a -> invertible b -> invertible (multiplyTransformMatrices a b).
Proof.
  unfold invertible. intros Ha Hb. rewrite det_multiply.
  intros H. apply Qcmult_integral in H. tauto.
Qed.

Lemma invertible_invert (x : TMat2D) :
  invertible x -> invertible (invertTransform x).
Proof.
  intros Hx. unfold invertible. rewrite (det_invert x Hx).
  unfold invertible in Hx. intros H.
  assert (H1 : 1 / det x * det x = 0) by (rewrite H; ring).
  assert (H2 : 1 / det x * det x = 1) by (field; exact Hx).
  rewrite H2 in H1. discriminate H1.
Qed.

(** A left inverse of an invertible matrix is its [invertTransform]. *)
Lemma invert_unique (x y : TMat2D) :
  invertible x -> multiplyTransformMatrices y x = iMatrix -> y = invertTransform x.
Proof.
  intros Hx Hy.
  rewrite <- (multiply_iMatrix_r y), <- (invert_multiply_r x Hx).
  rewrite multiply_assoc, Hy. apply multiply_iMatrix_l.
Qed.

Lemma planeChange_chain (a b c : TMat2D) :
  invertible b ->
  multiplyTransformMatrices
    (multiplyTransformMatrices (invertTransform c) b)
    (multiplyTransformMatrices (invertTransform b) a)
  = multiplyTransformMatrices (invertTransform c) a.
Proof.
  intros Hb. rewrite multiply_assoc.
  rewrite <- (multiply_assoc (invertTransform c) b (invertTransform b)).
  rewrite (invert_multiply_r b Hb), multiply_iMatrix_r. reflexivity.
Qed.

Lemma transform_iMatrix (p : Point.t) : Point.transform p iMatrix = p.
Proof. destruct p. unfold Point.transform, iMatrix; simpl. f_equal; ring. Qed.

(** ** More on [calcPlaneChangeMatrix] *)

(** X1.  To and from the canvas plane: the change from a plane to the
    canvas plane is the matrix of that plane, and the change from the
    canvas plane to a plane is the inverse of its matrix. *)
Theorem calcPlaneChangeMatrix_canvas (a : TMat2D) :
  calcPlaneChangeMatrix (Some a) None = a
  /\ calcPlaneChangeMatrix None (Some a) = invertTransform a.
Proof.
  unfold calcPlaneChangeMatrix; simpl. split.
  - rewrite invert_iMatrix. apply multiply_iMatrix_l.
  - apply multiply_iMatrix_r.
Qed.

(** X2.  Plane changes compose: going from [a] to [b] and then from [b]
    to [c] is going from [a] to [c], when the matrix of the plane in the
    middle is invertible. *)
Theorem calcPlaneChangeMatrix_compose (a b c : option TMat2D) :
  invertible (default iMatrix b) ->
  multiplyTransformMatrices (calcPlaneChangeMatrix b c) (calcPlaneChangeMatrix a b)
  = calcPlaneChangeMatrix a c.
Proof. intros Hb. unfold calcPlaneChangeMatrix. now apply planeChange_chain. Qed.

Lemma calcPlaneChangeMatrix_compose_witness :
  invertible (default iMatrix (Some (mkMat 0 2 (- 2) 0 (num 5) (num 7))))
  /\ multiplyTransformMatrices
       (calcPlaneChangeMatrix (Some (mkMat 0 2 (- 2) 0 (num 5) (num 7))) None)
       (calcPlaneChangeMatrix (Some (mkMat 1 0 0 1 (num 30) (num 30)))
                              (Some (mkMat 0 2 (- 2) 0 (num 5) (num 7))))
     = calcPlaneChangeMatrix (Some (mkMat 1 0 0 1 (num 30) (num 30))) None.
Proof.
  split.
  - vm_compute. discriminate.
  - apply (calcPlaneChangeMatrix_compose
             (Some (mkMat 1 0 0 1 (num 30) (num 30)))
             (Some (mkMat 0 2 (- 2) 0 (num 5) (num 7))) None).
    vm_compute. discriminate.
Defined.

(** X3.  Between two invertible planes the plane-change matrix is
    invertible, and its inverse is the plane change the other way. *)
Theorem calcPlaneChangeMatrix_reverse (a b : option TMat2D) :
  invertible (default iMatrix a) -> invertible (default iMatrix b) ->
  invertible (calcPlaneChangeMatrix a b)
  /\ invertTransform (calcPlaneChangeMatrix a b) = calcPlaneChangeMatrix b a.
Proof.
  intros Ha Hb. unfold calcPlaneChangeMatrix.
  assert (Hinv : invertible (multiplyTransformMatrices
                               (invertTransform (default iMatrix b))
                               (default iMatrix a))).
  { apply invertible_multiply; [apply invertible_invert|]; assumption. }
  split; [exact Hinv|].
  symmetry. apply (invert_unique _ _ Hinv).
  rewrite (planeChange_chain _ _ _ Hb). apply invert_multiply_l, Ha.
Qed.

Lemma calcPlaneChangeMatrix_reverse_witness :
  invertible (default iMatrix (Some (mkMat 2 0 0 2 (num 30) (num 30))))
  /\ invertible (default iMatrix (Some (mkMat 0 2 (- 2) 0 (num 5) (num 7))))
  /\ invertTransform
       (calcPlaneChangeMatrix (Some (mkMat 2 0 0 2 (num 30) (num 30)))
                              (Some (mkMat 0 2 (- 2) 0 (num 5) (num 7))))
     = calcPlaneChangeMatrix (Some (mkMat 0 2 (- 2) 0 (num 5) (num 7)))
                             (Some (mkMat 2 0 0 2 (num 30) (num 30))).
Proof.
  assert (Ha : invertible (default iMatrix (Some (mkMat 2 0 0 2 (num 30) (num 30)))))
    by (vm_compute; discriminate).
  assert (Hb : invertible (default iMatrix (Some (mkMat 0 2 (- 2) 0 (num 5) (num 7)))))
    by (vm_compute; discriminate).
  split; [exact Ha|]. split; [exact Hb|].
  destruct (calcPlaneChangeMatrix_reverse _ _ Ha Hb) as [_ H]. exact H.
Defined.

(** ** [sendPointToPlane] *)

(** X4.  The viewer sees the point where it was: mapping the sent point
    by the matrix of the destination plane gives what mapping the point
    by the matrix of the source plane gave, when the destination matrix
    is invertible; an omitted plane is the canvas plane. *)
Theorem sendPointToPlane_viewer (p : Point.t) (from to : option TMat2D) :
  invertible (default iMatrix to) ->
  Point.transform (sendPointToPlane p from to) (default iMatrix to)
  = Point.transform p (default iMatrix from).
Proof.
  intros Hto. unfold sendPointToPlane, calcPlaneChangeMatrix; simpl.
  rewrite <- transform_multiply, multiply_assoc.
  rewrite (invert_multiply_r _ Hto), multiply_iMatrix_l. reflexivity.
Qed.

Lemma sendPointToPlane_viewer_witness :
  invertible (default iMatrix (Some (mkMat 0 2 (- 2) 0 (num 5) (num 7))))
  /\ Point.transform
       (sendPointToPlane (Point.mk (num 50) (num 50)) None
                         (Some (mkMat 0 2 (- 2) 0 (num 5) (num 7))))
       (default iMatrix (Some (mkMat 0 2 (- 2) 0 (num 5) (num 7))))
     = Point.transform (Point.mk (num 50) (num 50)) (default iMatrix None).
Proof.
  split.
  - vm_compute. discriminate.
  - apply sendPointToPlane_viewer. vm_compute. discriminate.
Defined.

(** X5.  Sending a point from one plane to another and back gives the
    point again, and sending it from a plane to the same plane leaves it
    where it is, when the plane matrices are invertible. *)
Theorem sendPointToPlane_round_trip (p : Point.t) (from to : option TMat2D) :
  invertible (default iMatrix from) -> invertible (default iMatrix to) ->
  sendPointToPlane (sendPointToPlane p from to) to from = p
  /\ sendPointToPlane p to to = p.
Proof.
  intros Hfrom Hto. unfold sendPointToPlane, calcPlaneChangeMatrix; simpl. split.
  - rewrite <- transform_multiply, (planeChange_chain _ _ _ Hto).
    rewrite (invert_multiply_l _ Hfrom). apply transform_iMatrix.
  - rewrite (invert_multiply_l _ Hto). apply transform_iMatrix.
Qed.

Lemma sendPointToPlane_round_trip_witness :
  sendPointToPlane
    (sendPointToPlane (Point.mk (num 50) (num 50))
       (Some (mkMat 2 0 0 2 (num 30) (num 30)))
       (Some (mkMat 0 2 (- 2) 0 (num 5) (num 7))))
    (Some (mkMat 0 2 (- 2) 0 (num 5) (num 7)))
    (Some (mkMat 2 0 0 2 (num 30) (num 30)))
  = Point.mk (num 50) (num 50).
Proof.
  apply (sendPointToPlane_round_trip (Point.mk (num 50) (num 50))
           (Some (mkMat 2 0 0 2 (num 30) (num 30)))
           (Some (mkMat 0 2 (- 2) 0 (num 5) (num 7))));
    vm_compute; discriminate.
Defined.

(** X6.  Sending a point from [a] to [b] and then from [b] to [c] is
    sending it from [a] to [c], when the matrix of [b] is invertible. *)
Theorem sendPointToPlane_compose (p : Point.t) (a b c : option TMat2D) :
  invertible (default iMatrix b) ->
  sendPointToPlane (sendPointToPlane p a b) b c = sendPointToPlane p a c.
Proof.
  intros Hb. unfold sendPointToPlane, calcPlaneChangeMatrix; simpl.
  rewrite <- transform_multiply, (planeChange_chain _ _ _ Hb). reflexivity.
Qed.

Lemma sendPointToPlane_compose_witness :
  sendPointToPlane
    (sendPointToPlane (Point.mk (num 50) (num 50))
       (Some (mkMat 2 0 0 2 (num 30) (num 30)))
       (Some (mkMat 0 2 (- 2) 0 (num 5) (num 7))))
    (Some (mkMat 0 2 (- 2) 0 (num 5) (num 7))) None
  = sendPointToPlane (Point.mk (num 50) (num 50))
      (Some (mkMat 2 0 0 2 (num 30) (num 30))) None.
Proof.
  apply sendPointToPlane_compose. vm_compute. discriminate.
Defined.

(** ** More on [transformPointRelativeToCanvas] *)

(** X7.  The call returns a point exactly when both relation arguments
    are [child] or [sibling]; otherwise it throws. *)
Theorem transformPointRelativeToCanvas_returns_iff
    (p : Point.t) (canvas : StaticCanvas) (rb ra : string) :
  (exists q, transformPointRelativeToCanvas p canvas rb ra = Return q)
  <-> validRelation rb /\ validRelation ra.
Proof.
  split.
  - intros [q Hq].
    destruct (decide (validRelation rb)) as [Hb|Hb].
    + split; [exact Hb|].
      destruct (decide (validRelation ra)) as [Ha|Ha]; [exact Ha|].
      rewrite (transformPointRelativeToCanvas_bad_after p canvas rb ra Hb Ha) in Hq.
      discriminate Hq.
    + rewrite (transformPointRelativeToCanvas_bad_before p canvas rb ra Hb) in Hq.
      discriminate Hq.
  - intros [[Hb|Hb] [Ha|Ha]]; subst; eexists; reflexivity.
Qed.

(** X8.  There and back: for valid relations and an invertible
    [viewportTransform], changing the relation and changing it back
    returns the point. *)
Theorem transformPointRelativeToCanvas_there_and_back
    (p : Point.t) (canvas : StaticCanvas) (rb ra : string) :
  validRelation rb -> validRelation ra ->
  invertible (viewportTransform canvas) ->
  exists q : Point.t,
    transformPointRelativeToCanvas p canvas rb ra = Return q
    /\ transformPointRelativeToCanvas q canvas ra rb = Return p.
Proof.
  intros Hb Ha Ht.
  assert (Hsc : forall x, transformPointRelativeToCanvas x canvas "sibling" "child"
     = Return (Point.transform x (invertTransform (viewportTransform canvas))))
    by reflexivity.
  assert (Hcs : forall x, transformPointRelativeToCanvas x canvas "child" "sibling"
     = Return (Point.transform x (viewportTransform canvas)))
    by reflexivity.
  assert (Hss : forall x, transformPointRelativeToCanvas x canvas "sibling" "sibling"
     = Return x) by reflexivity.
  assert (Hcc : forall x, transformPointRelativeToCanvas x canvas "child" "child"
     = Return x) by reflexivity.
  destruct (transform_invert p _ Ht) as [H1 H2].
  destruct Hb as [->| ->], Ha as [->| ->];
    unfold ObjectRelation.child, ObjectRelation.sibling.
  - exists p. rewrite Hcc. split; reflexivity.
  - eexists. rewrite !Hcs, Hsc. split; [reflexivity|]. now rewrite H1.
  - eexists. rewrite !Hsc, Hcs. split; [reflexivity|]. now rewrite H2.
  - exists p. rewrite Hss. split; reflexivity.
Qed.

Lemma transformPointRelativeToCanvas_there_and_back_witness :
  exists q : Point.t,
    transformPointRelativeToCanvas (Point.mk (num 10) (num 10))
      (mkCanvas (mkMat 2 0 0 2 (num 30) (num 30))) "child" "sibling" = Return q
    /\ transformPointRelativeToCanvas q
         (mkCanvas (mkMat 2 0 0 2 (num 30) (num 30))) "sibling" "child"
       = Return (Point.mk (num 10) (num 10)).
Proof.
  apply transformPointRelativeToCanvas_there_and_back.
  - left. reflexivity.
  - right. reflexivity.
  - vm_compute. discriminate.
Defined.

(** X9.  The two changes of relation are the plane changes of
    [sendPointToPlane] between the canvas plane and the plane of the
    [viewportTransform]: from [sibling] to [child] the point is sent to
    that plane, from [child] to [sibling] it is sent from it. *)
Theorem transformPointRelativeToCanvas_sendPointToPlane
    (p : Point.t) (canvas : StaticCanvas) :
  transformPointRelativeToCanvas p canvas "sibling" "child"
  = Return (sendPointToPlane p None (Some (viewportTransform canvas)))
  /\ transformPointRelativeToCanvas p canvas "child" "sibling"
     = Return (sendPointToPlane p (Some (viewportTransform canvas)) None).
Proof.
  unfold transformPointRelativeToCanvas, sendPointToPlane, calcPlaneChangeMatrix.
  simpl. rewrite invert_iMatrix, multiply_iMatrix_l, multiply_iMatrix_r.
  split; reflexivity.
Qed.

(** ** More on [sendObjectToPlane] *)




Section SendObjectToPlaneFurther.

Variable calcTransformMatrix : Store -> ref -> TMat2D.
Variable getTotalAngle : Store -> ref -> TDegree.

Local Abbreviation send := (sendObjectToPlane calcTransformMatrix getTotalAngle).
Local Abbreviation plane := (planeMatrix calcTransformMatrix).
Local Abbreviation total := (planeAngle getTotalAngle).

Lemma sendObjectToPlane_three_explicit (s : Store) (object : ref)
    (o : FabricObject.t) (from to : option ref) :
  s !! object = Some o ->
  send s object [from; to]
  = Some (<[object := FabricObject.mk
              (multiplyTransformMatrices
                 (multiplyTransformMatrices (invertTransform (plane s to))
                                            (plane s from))
                 (FabricObject.ownMatrix o))
              (FabricObject.angle o - total s from + total s to)
              (FabricObject.group o)]> s,
          PlaneChange.mk
            (multiplyTransformMatrices (invertTransform (plane s to)) (plane s from))
            (FabricObject.angle o - total s from + total s to)).
Proof. intros Ho. now rewrite (sendObjectToPlane_three _ _ s object o from to Ho). Qed.


(** X11.  Only a call with exactly three arguments takes [from] and [to]
    from the arguments: with four arguments or more the call behaves as
    the two-argument call on its first argument after [object], and
    ignores the others; without any argument after [object] it behaves
    as the two-argument call with [undefined]. *)
Theorem sendObjectToPlane_argument_count_edges (s : Store) (object : ref) :
  (forall (arg1 arg2 arg3 : option ref) (rest : list (option ref)),
      send s object (arg1 :: arg2 :: arg3 :: rest) = send s object [arg1])
  /\ send s object [] = send s object [None].
Proof. split; [intros arg1 arg2 arg3 rest|]; reflexivity. Qed.



(** X14.  The points of the object move as [sendPointToPlane] moves
    points: a point mapped by the new local matrix is the point mapped
    by the old local matrix and then sent from the plane of [from] to
    the plane of [to]; it is also that point mapped by the returned
    matrix. *)
Theorem sendObjectToPlane_moves_points (s : Store) (object : ref)
    (o : FabricObject.t) (from to : option ref) :
  s !! object = Some o ->
  exists s' r o',
    send s object [from; to] = Some (s', r)
    /\ s' !! object = Some o'
    /\ forall q : Point.t,
         Point.transform q (FabricObject.calcOwnMatrix o')
         = sendPointToPlane (Point.transform q (FabricObject.calcOwnMatrix o))
             (calcTransformMatrix s <$> from) (calcTransformMatrix s <$> to)
         /\ Point.transform q (FabricObject.calcOwnMatrix o')
            = Point.transform (Point.transform q (FabricObject.calcOwnMatrix o))
                              (PlaneChange.transform r).
Proof.
  intros Ho. eexists _, _, _. split; [|split].
  { apply (sendObjectToPlane_three_explicit s object o from to Ho). }
  { apply lookup_insert_eq. }
  intros q. unfold FabricObject.calcOwnMatrix; simpl.
  rewrite transform_multiply. split; [|reflexivity].
  destruct from, to; reflexivity.
Qed.

(** X15.  An object does not degenerate: when its local matrix and the
    cumulative transforms of [from] and [to] are invertible, so are its
    new local matrix and the returned matrix. *)
Theorem sendObjectToPlane_keeps_invertible (s : Store) (object : ref)
    (o : FabricObject.t) (from to : option ref) :
  s !! object = Some o ->
  invertible (FabricObject.calcOwnMatrix o) ->
  invertible (plane s from) -> invertible (plane s to) ->
  exists s' r o',
    send s object [from; to] = Some (s', r)
    /\ s' !! object = Some o'
    /\ invertible (FabricObject.calcOwnMatrix o')
    /\ invertible (PlaneChange.transform r).
Proof.
  intros Ho Hown Hfrom Hto. eexists _, _, _. split; [|split].
  { apply (sendObjectToPlane_three_explicit s object o from to Ho). }
  { apply lookup_insert_eq. }
  assert (HM : invertible (multiplyTransformMatrices
                             (invertTransform (plane s to)) (plane s from))).
  { apply invertible_multiply; [apply invertible_invert|]; assumption. }
  split; [|exact HM].
  unfold FabricObject.calcOwnMatrix; simpl.
  apply invertible_multiply; assumption.
Qed.

End SendObjectToPlaneFurther.

(** *** The further properties in the scene of the scenario *)




Lemma sendObjectToPlane_moves_points_witness :
  exists s' r o',
    sendObjectToPlane sceneTransform sceneAngle exampleScene 2%nat
      [Some 1%nat; Some 3%nat] = Some (s', r)
    /\ s' !! 2%nat = Some o'
    /\ forall q : Point.t,
         Point.transform q (FabricObject.calcOwnMatrix o')
         = sendPointToPlane (Point.transform q (FabricObject.calcOwnMatrix exampleNode))
             (sceneTransform exampleScene <$> Some 1%nat)
             (sceneTransform exampleScene <$> Some 3%nat)
         /\ Point.transform q (FabricObject.calcOwnMatrix o')
            = Point.transform (Point.transform q (FabricObject.calcOwnMatrix exampleNode))
                              (PlaneChange.transform r).
Proof.
  apply (sendObjectToPlane_moves_points sceneTransform sceneAngle
           exampleScene 2%nat exampleNode (Some 1%nat) (Some 3%nat)).
  reflexivity.
Defined.

Lemma sendObjectToPlane_keeps_invertible_witness :
  exists s' r o',
    sendObjectToPlane sceneTransform sceneAngle exampleScene 2%nat
      [Some 1%nat; Some 3%nat] = Some (s', r)
    /\ s' !! 2%nat = Some o'
    /\ invertible (FabricObject.calcOwnMatrix o')
    /\ invertible (PlaneChange.transform r).
Proof.
  apply (sendObjectToPlane_keeps_invertible sceneTransform sceneAngle
           exampleScene 2%nat exampleNode (Some 1%nat) (Some 3%nat)).
  - reflexivity.
  - vm_compute. discriminate.
  - vm_compute. discriminate.
  - vm_compute. discriminate.
Defined.
